(** * HomepageFeatures: the feature grid of the prompt-insights homepage

    A shallow embedding of
    [prompt-insights/src/components/HomepageFeatures/index.tsx]
    and the properties of the tree it renders.

    The component is a pair of React function components without hooks:
    [Feature] turns one [FeatureItem] into a card and [HomepageFeatures]
    maps [Feature] over the module-level array [FeatureList].  JSX is read
    as the tree of elements it denotes; a function-component element is
    recorded together with the tree the function returns for its props. *)

From stdpp Require Import base list strings.

Open Scope string_scope.

Set Warnings "-register-all".

(** ** Element trees *)

(** [Svg: React.ComponentType<React.ComponentProps<'svg'>>], obtained as
    [require(asset).default]: an opaque component named by its asset. *)
Record SvgComponent := { asset : string }.

(** What stands in the tag position of a JSX element of this module. *)
Inductive ElementType :=
| Intrinsic (tag : string)          (* <div>, <section>, <p>, <strong> *)
| ThemeHeading                      (* Heading from '@theme/Heading' *)
| SvgElement (Svg : SvgComponent).  (* <Svg ... /> *)

(** [ReactNode], as far as this module builds or passes it on.  Props other
    than [children] and [key] are string valued here and kept in source
    order; a key is the array index it was made from. *)
Inductive ReactNode :=
| Null                              (* null, undefined, true, false *)
| Text (s : string)
| Fragment (children : list ReactNode)
| Element (type : ElementType) (props : list (string * string))
          (children : list ReactNode)
| FeatureElement (key : nat) (output : ReactNode).
    (* <Feature key={key} {...props} /> with output = Feature(props) *)

#[global] Instance SvgComponent_eq_dec : EqDecision SvgComponent.
Proof. solve_decision. Defined.

#[global] Instance ElementType_eq_dec : EqDecision ElementType.
Proof. solve_decision. Defined.

(** [type FeatureItem = {title; Svg; description}] *)
Record FeatureItem := {
  title : string;
  Svg : SvgComponent;
  description : ReactNode;
}.

(** ** clsx *)

(** [clsx] on string arguments: the truthy (non-empty) arguments joined by
    single spaces. *)
Definition clsx (args : list string) : string :=
  String.concat " " (filter (λ s, s ≠ "") args).

(** ** The module constant *)

(** JSX text is written as the compiler emits it: lines trimmed and the
    non-empty ones joined by one space; whitespace next to a tag on the
    same line is kept. *)
Definition FeatureList : list FeatureItem := [
  {| title := "실전 프롬프트 분석";
     Svg := {| asset := "@site/static/img/undraw_docusaurus_mountain.svg" |};
     description :=
       Fragment [
         Text "Cluely, Cursor, Perplexity 같은 ";
         Element (Intrinsic "strong") [] [Text "실제 서비스"];
         Text "에서 사용되는 프롬프트를 분석하여 검증된 패턴과 전략을 공유합니다."
       ] |};
  {| title := "LLM 에이전트 최적화";
     Svg := {| asset := "@site/static/img/undraw_docusaurus_tree.svg" |};
     description :=
       Fragment [
         Text "역할 정의, 컨텍스트 관리, 도구 활용 등 ";
         Element (Intrinsic "strong") [] [Text "에이전트 개발의 핵심 요소"];
         Text "들을 체계적으로 분석하고 베스트 프랙티스를 제시합니다."
       ] |};
  {| title := "바로 적용 가능한 인사이트";
     Svg := {| asset := "@site/static/img/undraw_docusaurus_react.svg" |};
     description :=
       Fragment [
         Text "이론이 아닌 ";
         Element (Intrinsic "strong") [] [Text "실무에서 바로 활용"];
         Text "할 수 있는 프롬프트 패턴과 구현 가이드를 제공합니다."
       ] |}
].

(** ** Evaluation against the module's array

    [FeatureList] is a [const] binding of a mutable JavaScript array.  An
    evaluation therefore runs against a store holding the array's current
    elements and hands the store on. *)
Abbreviation Store := (list FeatureItem).

Definition Eval (A : Type) : Type := Store → A * Store.

Definition ret {A} (a : A) : Eval A := λ st, (a, st).

Definition bind {A B} (m : Eval A) (k : A → Eval B) : Eval B :=
  λ st, let '(a, st') := m st in k a st'.

Notation "x <- m ;; k" := (bind m (λ x, k))
  (at level 100, m at next level, right associativity, only parsing).

(** [FeatureList.length] *)
Definition array_length : Eval nat := λ st, (length st, st).

(** [FeatureList[k]] when [k] is an own index of the array. *)
Definition array_get (k : nat) : Eval (option FeatureItem) :=
  λ st, (st !! k, st).

(** The loop of [Array.prototype.map]: for each index from [k], [n] times,
    an element present at that index is read from the array as it then is
    and passed with the index to the callback; an absent index leaves a
    hole in the result. *)
Fixpoint map_from {B} (callbackfn : FeatureItem → nat → Eval B)
    (k n : nat) : Eval (list (option B)) :=
  match n with
  | 0 => ret []
  | S n' =>
      kValue <- array_get k ;;
      mapped <- match kValue with
               | Some v => b <- callbackfn v k ;; ret (Some b)
               | None => ret None
               end ;;
      rest <- map_from callbackfn (S k) n' ;;
      ret (mapped :: rest)
  end.

(** [FeatureList.map(callbackfn)]: the length is read once, before the
    loop. *)
Definition Array_map {B} (callbackfn : FeatureItem → nat → Eval B)
    : Eval (list (option B)) :=
  len <- array_length ;;
  map_from callbackfn 0 len.

(** An array in child position: React renders its elements in order and
    nothing for a hole. *)
Definition arrayChildren (a : list (option ReactNode)) : list ReactNode :=
  omap id a.

Section Component.

(** [import styles from './styles.module.css']: the class name the CSS
    module assigns to each of its local names. *)
Variable styles : string → string.

(** [function Feature({title, Svg, description}: FeatureItem)] *)
Definition Feature (props : FeatureItem) : ReactNode :=
  Element (Intrinsic "div") [("className", clsx ["col col--4"])] [
    Element (Intrinsic "div") [("className", "text--center")] [
      Element (SvgElement (Svg props))
        [("className", styles "featureSvg"); ("role", "img")] []
    ];
    Element (Intrinsic "div")
      [("className", "text--center padding-horiz--md")] [
      Element ThemeHeading [("as", "h3")] [Text (title props)];
      Element (Intrinsic "p") [] [description props]
    ]
  ].

(** [export default function HomepageFeatures(): ReactNode] *)
Definition HomepageFeatures : Eval ReactNode :=
  cards <- Array_map (λ props idx, ret (FeatureElement idx (Feature props))) ;;
  ret (Element (Intrinsic "section") [("className", styles "features")] [
         Element (Intrinsic "div") [("className", "container")] [
           Element (Intrinsic "div") [("className", "row")]
             (arrayChildren cards)
         ]
       ]).

End Component.

(** [n] successive calls of [HomepageFeatures()], as the framework makes
    on re-render, with the outputs in call order. *)
Fixpoint invocations (styles : string → string) (n : nat)
    : Eval (list ReactNode) :=
  match n with
  | 0 => ret []
  | S n' =>
      out <- HomepageFeatures styles ;;
      outs <- invocations styles n' ;;
      ret (out :: outs)
  end.

(** ** Observing a rendered tree *)

Definition childNodes (n : ReactNode) : list ReactNode :=
  match n with
  | Null | Text _ => []
  | Fragment cs => cs
  | Element _ _ cs => cs
  | FeatureElement _ out => [out]
  end.

Definition elementType (n : ReactNode) : option ElementType :=
  match n with
  | Element ty _ _ => Some ty
  | _ => None
  end.

Definition props (n : ReactNode) : list (string * string) :=
  match n with
  | Element _ ps _ => ps
  | _ => []
  end.

(** The value of the first prop called [name]. *)
Definition prop (name : string) (n : ReactNode) : option string :=
  snd <$> find (λ p, bool_decide (p.1 = name)) (props n).

(** The class tokens of an element, as [element.classList] has them. *)
Definition classList (n : ReactNode) : list string :=
  from_option String.words [] (prop "className" n).

Definition hasClass (c : string) (n : ReactNode) : Prop := c ∈ classList n.

#[global] Instance hasClass_dec c n : Decision (hasClass c n).
Proof. unfold hasClass. apply _. Defined.

Definition hasType (ty : ElementType) (n : ReactNode) : Prop :=
  elementType n = Some ty.

#[global] Instance hasType_dec ty n : Decision (hasType ty n).
Proof. unfold hasType. apply _. Defined.

Definition isSvg (n : ReactNode) : bool :=
  match elementType n with
  | Some (SvgElement _) => true
  | _ => false
  end.

(** Every node of a tree, in document order. *)
Fixpoint descendants (n : ReactNode) : list ReactNode :=
  n :: match n with
       | Null | Text _ => []
       | Fragment cs => flat_map descendants cs
       | Element _ _ cs => flat_map descendants cs
       | FeatureElement _ out => descendants out
       end.

(** The children of all of [ns], in order. *)
Definition childrenOf (ns : list ReactNode) : list ReactNode :=
  flat_map childNodes ns.

(** [section > .container > .row > *]: the cards of a rendered section. *)
Definition cards (section : ReactNode) : list ReactNode :=
  childrenOf (filter (hasClass "row")
    (childrenOf (filter (hasClass "container") (childNodes section)))).

(** The elements two levels below the root element of a card: what the
    card's icon wrapper and text wrapper hold. *)
Definition cardContent (card : ReactNode) : list ReactNode :=
  childrenOf (childrenOf (childNodes card)).

Definition cardHeadings (card : ReactNode) : list ReactNode :=
  filter (hasType ThemeHeading) (cardContent card).

Definition cardParagraphs (card : ReactNode) : list ReactNode :=
  filter (hasType (Intrinsic "p")) (cardContent card).

(** The icon elements of a card, each with the wrapper it sits in. *)
Definition cardIcons (card : ReactNode) : list (ReactNode * ReactNode) :=
  flat_map (λ wrapper,
    (λ icon, (wrapper, icon)) <$> filter (λ n, isSvg n = true) (childNodes wrapper))
    (childrenOf (childNodes card)).

(** The [<strong>] elements anywhere inside a node. *)
Definition emphasis (n : ReactNode) : list ReactNode :=
  filter (hasType (Intrinsic "strong")) (descendants n).

(** The [key] of a [Feature] element. *)
Definition elementKey (n : ReactNode) : option nat :=
  match n with
  | FeatureElement k _ => Some k
  | _ => None
  end.

(** The text nodes of a tree, in document order, run together, as
    [node.textContent] gives them. *)
Fixpoint textContent (n : ReactNode) : string :=
  match n with
  | Null => ""
  | Text s => s
  | Fragment cs => foldr (λ c acc, textContent c +:+ acc) "" cs
  | Element _ _ cs => foldr (λ c acc, textContent c +:+ acc) "" cs
  | FeatureElement _ out => textContent out
  end.

(** The entry a card shows, read back from the card alone: the title from
    the text of its one heading, the icon from the type of its one icon
    element, the description from the child of its one paragraph. *)
Definition entryOfCard (card : ReactNode) : option FeatureItem :=
  match cardHeadings card, cardIcons card, cardParagraphs card with
  | [heading], [(_, icon)], [paragraph] =>
      match childNodes heading, elementType icon, childNodes paragraph with
      | [Text t], Some (SvgElement svg), [d] =>
          Some {| title := t; Svg := svg; description := d |}
      | _, _, _ => None
      end
  | _, _, _ => None
  end.

(** ** The component at run time

    At run time the annotations [FeatureItem] and [ReactNode] are gone:
    an element of the array, and each of its properties, is whatever
    JavaScript value is there, and an evaluation ends in a value or in a
    thrown exception.  [Runtime] embeds the same two functions on such
    values, the array being passed in. *)
Module Runtime.

Inductive Exception := TypeError.

(** How an evaluation ends. *)
Inductive Result (A : Type) :=
| Ok (a : A)
| Throw (e : Exception).

Arguments Ok {A} a.
Arguments Throw {A} e.

Definition and_then {A B} (m : Result A) (k : A → Result B) : Result B :=
  match m with
  | Ok a => k a
  | Throw e => Throw e
  end.

Notation "x <-? m ;; k" := (and_then m (λ x, k))
  (at level 100, m at next level, right associativity, only parsing).

(** A value other than [undefined] and [null], seen through the own
    enumerable properties the component reads: [title], [Svg] and
    [description], each any value of [V] or, for [None], missing or
    [undefined]. *)
Record Object (V : Type) := {
  own_title : option V;
  own_Svg : option V;
  own_description : option V;
}.

Arguments own_title {V} o.
Arguments own_Svg {V} o.
Arguments own_description {V} o.

(** What stands in the tag position of an element at run time. *)
Inductive Type_ (V : Type) :=
| Tag (tag : string)
| Heading
| Value (v : option V).             (* <Svg ... />, whatever Svg holds *)

Arguments Tag {V} tag.
Arguments Heading {V}.
Arguments Value {V} v.

(** An element tree at run time.  A child written [{e}] is the value of
    [e]; a [Feature] element is first built with its props and later
    called by React. *)
Inductive Node (V : Type) :=
| Child (v : option V)
| Elem (type : Type_ V) (props : list (string * string))
       (children : list (Node V))
| FeatureElem (key : nat) (props : Object V)
| Called (key : nat) (output : Node V).

Arguments Child {V} v.
Arguments Elem {V} type props children.
Arguments FeatureElem {V} key props.
Arguments Called {V} key output.

Section Functions.

Context {V : Type}.
Variable styles : string → string.

(** [{...v}] in an object literal: nothing is copied from [undefined] or
    [null]. *)
Definition spread (v : option (Object V)) : Object V :=
  match v with
  | Some o => o
  | None => {| own_title := None; own_Svg := None; own_description := None |}
  end.

(** [function Feature({title, Svg, description})], called on the props
    object of an element or, for [None], on [undefined] or [null]:
    destructuring the argument then throws a [TypeError]. *)
Definition Feature (arg : option (Object V)) : Result (Node V) :=
  match arg with
  | None => Throw TypeError
  | Some o =>
      Ok (Elem (Tag "div") [("className", clsx ["col col--4"])] [
            Elem (Tag "div") [("className", "text--center")] [
              Elem (Value (own_Svg o))
                [("className", styles "featureSvg"); ("role", "img")] []
            ];
            Elem (Tag "div")
              [("className", "text--center padding-horiz--md")] [
              Elem Heading [("as", "h3")] [Child (own_title o)];
              Elem (Tag "p") [] [Child (own_description o)]
            ]
          ])
  end.

(** [array.map(callbackfn)] on a dense array: the callback is called on
    each element with its index, in order, and the first throw ends the
    call. *)
Fixpoint map_from {B} (callbackfn : option (Object V) → nat → Result B)
    (k : nat) (array : list (option (Object V))) : Result (list B) :=
  match array with
  | [] => Ok []
  | v :: rest =>
      b <-? callbackfn v k ;;
      bs <-? map_from callbackfn (S k) rest ;;
      Ok (b :: bs)
  end.

(** [export default function HomepageFeatures()], with the array it
    reads. *)
Definition HomepageFeatures (FeatureList : list (option (Object V)))
    : Result (Node V) :=
  cards <-? map_from (λ props idx, Ok (FeatureElem idx (spread props)))
              0 FeatureList ;;
  Ok (Elem (Tag "section") [("className", styles "features")] [
        Elem (Tag "div") [("className", "container")] [
          Elem (Tag "div") [("className", "row")] cards
        ]
      ]).

(** React going through a returned tree: each [Feature] element is called
    with the props it was built with. *)
Fixpoint call_components (n : Node V) : Result (Node V) :=
  match n with
  | Child v => Ok (Child v)
  | Elem ty ps cs =>
      cs' <-? (fix go (l : list (Node V)) : Result (list (Node V)) :=
                 match l with
                 | [] => Ok []
                 | c :: l' =>
                     c' <-? call_components c ;;
                     l'' <-? go l' ;;
                     Ok (c' :: l'')
                 end) cs ;;
      Ok (Elem ty ps cs')
  | FeatureElem k o =>
      out <-? Feature (Some o) ;;
      Ok (Called k out)
  | Called k out =>
      out' <-? call_components out ;;
      Ok (Called k out')
  end.

(** [call_components] on each node of a list, in order. *)
Definition call_each (l : list (Node V)) : Result (list (Node V)) :=
  (fix go (l : list (Node V)) : Result (list (Node V)) :=
     match l with
     | [] => Ok []
     | c :: l' =>
         c' <-? call_components c ;;
         l'' <-? go l' ;;
         Ok (c' :: l'')
     end) l.

(** One render: the entry point is called, then the components of the
    tree it returned. *)
Definition render (FeatureList : list (option (Object V)))
    : Result (Node V) :=
  section <-? HomepageFeatures FeatureList ;;
  call_components section.

Definition childNodes (n : Node V) : list (Node V) :=
  match n with
  | Child _ | FeatureElem _ _ => []
  | Elem _ _ cs => cs
  | Called _ out => [out]
  end.

(** The children of the row of a section. *)
Definition cards (section : Node V) : list (Node V) :=
  flat_map childNodes (flat_map childNodes (childNodes section)).

End Functions.

(** The values of a well-typed entry's properties. *)
Inductive JSValue :=
| JSString (s : string)
| JSComponent (c : SvgComponent)
| JSNode (n : ReactNode).

(** An entry of type [FeatureItem] as the object it is at run time. *)
Definition entry (item : FeatureItem) : option (Object JSValue) :=
  Some {| own_title := Some (JSString (title item));
          own_Svg := Some (JSComponent (Svg item));
          own_description := Some (JSNode (description item)) |}.

Definition typedType (ty : Type_ JSValue) : option ElementType :=
  match ty with
  | Tag tag => Some (Intrinsic tag)
  | Heading => Some ThemeHeading
  | Value (Some (JSComponent c)) => Some (SvgElement c)
  | Value _ => None
  end.

(** A run-time tree read as a typed one, where it is one: a string child
    is a text node, a component is no child, an element whose type is not
    a component has no typed reading, nor has a [Feature] element that was
    not called. *)
Fixpoint typed (n : Node JSValue) : option ReactNode :=
  match n with
  | Child None => Some Null
  | Child (Some (JSString s)) => Some (Text s)
  | Child (Some (JSNode r)) => Some r
  | Child (Some (JSComponent _)) => None
  | Elem ty ps cs =>
      match typedType ty,
            (fix go (l : list (Node JSValue)) : option (list ReactNode) :=
               match l with
               | [] => Some []
               | c :: l' =>
                   match typed c, go l' with
                   | Some c', Some l'' => Some (c' :: l'')
                   | _, _ => None
                   end
               end) cs with
      | Some ty', Some cs' => Some (Element ty' ps cs')
      | _, _ => None
      end
  | FeatureElem _ _ => None
  | Called k out => FeatureElement k <$> typed out
  end.

(** [typed] on each node of a list. *)
Definition typed_each (l : list (Node JSValue)) : option (list ReactNode) :=
  (fix go (l : list (Node JSValue)) : option (list ReactNode) :=
     match l with
     | [] => Some []
     | c :: l' =>
         match typed c, go l' with
         | Some c', Some l'' => Some (c' :: l'')
         | _, _ => None
         end
     end) l.

End Runtime.

(** ** The evaluation of [Array.prototype.map] with a pure callback *)

Section Loop.

Context {B : Type} (f : FeatureItem → nat → B).

(** A callback that only returns a value leaves the array alone, so the
    loop reads from the array it started with. *)
Lemma map_from_pure (n k : nat) (st : Store) :
  map_from (λ v i, ret (f v i)) k n st
  = ((λ i, (λ v, f v i) <$> st !! i) <$> seq k n, st).
Proof.
  revert k. induction n as [|n IH]; intros k; [reflexivity|].
  cbn [map_from seq fmap list_fmap]. unfold bind at 1. unfold array_get.
  unfold bind at 1.
  destruct (st !! k) as [v|] eqn:Hk; cbn.
  - unfold bind, ret. rewrite IH. reflexivity.
  - unfold bind, ret. rewrite IH. reflexivity.
Qed.

(** Every index below the length read before the loop is still present
    when the loop reaches it: the result has no hole. *)
Lemma Array_map_pure (st : Store) :
  Array_map (λ v i, ret (f v i)) st = (Some <$> imap (λ i v, f v i) st, st).
Proof.
  unfold Array_map, bind, array_length. rewrite map_from_pure. f_equal.
  apply list_eq. intros i.
  rewrite !list_lookup_fmap, list_lookup_imap.
  destruct (decide (i < length st)) as [Hlt|Hge].
  - rewrite lookup_seq_lt by done. cbn.
    destruct (lookup_lt_is_Some_2 st i Hlt) as [v Hv]. rewrite Hv. reflexivity.
  - rewrite lookup_seq_ge by lia. rewrite (lookup_ge_None_2 st i) by lia. reflexivity.
Qed.

End Loop.

(** The loop does follow the array: a callback that empties it after the
    first element leaves holes at the indices that are gone. *)
Example Array_map_sees_mutation :
  Array_map (λ props idx _, (title props, [])) FeatureList
  = ([Some "실전 프롬프트 분석"; None; None], []).
Proof. reflexivity. Qed.

Lemma arrayChildren_Some (l : list ReactNode) : arrayChildren (Some <$> l) = l.
Proof.
  unfold arrayChildren. induction l as [|x l IH]; [done|].
  cbn. by rewrite IH.
Qed.

(** A relation that holds between every element and its indexed image
    holds between a list and its [imap]. *)
Lemma Forall2_imap {A C} (R : A → C → Prop) (g : nat → A → C) (l : list A) :
  (∀ i x, R x (g i x)) → Forall2 R l (imap g l).
Proof.
  revert g. induction l as [|x l IH]; intros g Hg; cbn; constructor.
  - apply Hg.
  - apply IH. intros i y. apply Hg.
Qed.

Lemma Forall_imap {A C} (P : C → Prop) (g : nat → A → C) (l : list A) :
  (∀ i x, P (g i x)) → Forall P (imap g l).
Proof.
  revert g. induction l as [|x l IH]; intros g Hg; cbn; constructor.
  - apply Hg.
  - apply IH. intros i y. apply Hg.
Qed.

Lemma fmap_imap_pointwise {A C D} (h : C → D) (g : nat → A → C) (k : A → D)
    (l : list A) :
  (∀ i x, h (g i x) = k x) → h <$> imap g l = k <$> l.
Proof.
  intros Hg. apply list_eq. intros i.
  rewrite !list_lookup_fmap, list_lookup_imap.
  destruct (l !! i) as [x|]; cbn; [|done]. by rewrite Hg.
Qed.

(** ** What [HomepageFeatures] evaluates to *)

Section Rendering.

Variable styles : string → string.

(** The section holds one container, that holds one row, and the row holds
    a [Feature] element per array element, keyed by its index; the array
    is handed on as it was. *)
Lemma HomepageFeatures_eval (st : Store) :
  HomepageFeatures styles st
  = (Element (Intrinsic "section") [("className", styles "features")] [
       Element (Intrinsic "div") [("className", "container")] [
         Element (Intrinsic "div") [("className", "row")]
           (imap (λ idx props, FeatureElement idx (Feature styles props)) st)
       ]
     ], st).
Proof.
  unfold HomepageFeatures. unfold bind at 1.
  rewrite (Array_map_pure (λ props idx, FeatureElement idx (Feature styles props))).
  unfold ret. by rewrite arrayChildren_Some.
Qed.

Lemma cards_HomepageFeatures (st : Store) :
  cards (HomepageFeatures styles st).1
  = imap (λ idx props, FeatureElement idx (Feature styles props)) st.
Proof.
  rewrite HomepageFeatures_eval. cbn [fst].
  unfold cards, childrenOf. cbn. apply app_nil_r.
Qed.

Lemma invocations_eval (n : nat) (st : Store) :
  invocations styles n st = (replicate n (HomepageFeatures styles st).1, st).
Proof.
  induction n as [|n IH]; [reflexivity|].
  cbn [invocations replicate]. unfold bind at 1.
  rewrite HomepageFeatures_eval at 1. unfold bind, ret. rewrite IH.
  by rewrite HomepageFeatures_eval.
Qed.

End Rendering.

(** ** The run-time evaluation *)

Lemma Runtime_map_from_ok {V B} (g : nat → option (Runtime.Object V) → B)
    (k : nat) (array : list (option (Runtime.Object V))) :
  Runtime.map_from (λ v i, Runtime.Ok (g i v)) k array
  = Runtime.Ok (imap (λ i, g (k + i)) array).
Proof.
  revert k. induction array as [|v array IH]; intros k; [reflexivity|].
  cbn [Runtime.map_from Runtime.and_then imap]. rewrite IH.
  cbn [Runtime.and_then]. rewrite Nat.add_0_r. do 2 f_equal.
  apply imap_ext. intros i x _. cbn. f_equal. lia.
Qed.

Lemma Runtime_call_each_imap {V A} (styles : string → string)
    (g h : nat → A → Runtime.Node V) (l : list A) :
  (∀ i x, Runtime.call_components styles (g i x) = Runtime.Ok (h i x)) →
  Runtime.call_each styles (imap g l) = Runtime.Ok (imap h l).
Proof.
  revert g h. induction l as [|x l IH]; intros g h Hgh; [reflexivity|].
  cbn [imap]. unfold Runtime.call_each. rewrite Hgh.
  cbn [Runtime.and_then].
  change (fix go (l : list (Runtime.Node V)) := _)
    with (Runtime.call_each (V:=V) styles).
  rewrite (IH (g ∘ S) (h ∘ S)) by (intros i y; apply Hgh). reflexivity.
Qed.

Lemma Runtime_typed_each_imap {A} (g : nat → A → Runtime.Node Runtime.JSValue)
    (h : nat → A → ReactNode) (l : list A) :
  (∀ i x, Runtime.typed (g i x) = Some (h i x)) →
  Runtime.typed_each (imap g l) = Some (imap h l).
Proof.
  revert g h. induction l as [|x l IH]; intros g h Hgh; [reflexivity|].
  cbn [imap]. unfold Runtime.typed_each. rewrite Hgh.
  change (fix go (l : list (Runtime.Node Runtime.JSValue)) := _)
    with Runtime.typed_each.
  rewrite (IH (g ∘ S) (h ∘ S)) by (intros i y; apply Hgh). reflexivity.
Qed.

(** A render ends normally on every array: [Feature] is only ever called
    on spread props, which are an object. *)
Lemma Runtime_render_eval {V} (styles : string → string)
    (array : list (option (Runtime.Object V))) :
  Runtime.render styles array
  = Runtime.Ok
      (Runtime.Elem (Runtime.Tag "section") [("className", styles "features")] [
         Runtime.Elem (Runtime.Tag "div") [("className", "container")] [
           Runtime.Elem (Runtime.Tag "div") [("className", "row")]
             (imap (λ idx v,
                Runtime.Called idx
                  match Runtime.Feature styles (Some (Runtime.spread v)) with
                  | Runtime.Ok body => body
                  | Runtime.Throw _ => Runtime.Child None
                  end) array)
         ]
       ]).
Proof.
  unfold Runtime.render, Runtime.HomepageFeatures.
  rewrite (Runtime_map_from_ok (λ idx props,
    Runtime.FeatureElem idx (Runtime.spread props))).
  cbn [Runtime.and_then Runtime.call_components Nat.add].
  change (fix go (l : list (Runtime.Node V)) := _)
    with (Runtime.call_each (V:=V) styles).
  rewrite (Runtime_call_each_imap styles _
    (λ idx v, Runtime.Called idx
       match Runtime.Feature styles (Some (Runtime.spread v)) with
       | Runtime.Ok body => body
       | Runtime.Throw _ => Runtime.Child None
       end)) by reflexivity.
  reflexivity.
Qed.

(** The throw is there to be met: [Feature] called on [undefined] throws,
    and a render of an array that holds [undefined] does not. *)
Example Runtime_undefined_entry (styles : string → string) :
  Runtime.Feature (V:=unit) styles None = Runtime.Throw Runtime.TypeError
  ∧ ∃ out, Runtime.render (V:=unit) styles [None] = Runtime.Ok out.
Proof. split; [reflexivity|]. eexists. reflexivity. Qed.

(** ** Properties of the rendered section *)

Section Properties.

Variable styles : string → string.

(** C1.  Whatever the array holds when [HomepageFeatures] is called, the
    row of the rendered section holds as many cards as the array has
    entries, and the card at each position [i] is the [Feature] element
    with key [i] rendered from the entry at position [i]: one card per
    entry, in the order of the entries. *)
Theorem cards_one_per_entry_in_order (st : Store) :
  let out := (HomepageFeatures styles st).1 in
  length (cards out) = length st ∧
  ∀ i : nat,
    cards out !! i
    = (λ props, FeatureElement i (Feature styles props)) <$> st !! i.
Proof.
  cbn zeta. rewrite cards_HomepageFeatures. split.
  - apply length_imap.
  - intros i. apply list_lookup_imap.
Qed.

(** C2.  Card by card, in the order of the entries, the headings of a card
    are exactly one heading whose only child is the text node of that
    entry's title, and the paragraphs of a card are exactly one paragraph
    whose only child is that entry's description: no title or description
    is missing, repeated or found in another card. *)
Theorem card_holds_title_and_description (st : Store) :
  let out := (HomepageFeatures styles st).1 in
  (λ card, childNodes <$> cardHeadings card) <$> cards out
  = (λ props, [[Text (title props)]]) <$> st
  ∧ (λ card, childNodes <$> cardParagraphs card) <$> cards out
    = (λ props, [[description props]]) <$> st.
Proof.
  cbn zeta. rewrite cards_HomepageFeatures.
  split; apply fmap_imap_pointwise; intros i props; reflexivity.
Qed.

(** C3.  On the array as the module defines it, the section has three
    cards; read left to right their headings say "실전 프롬프트 분석",
    "LLM 에이전트 최적화", "바로 적용 가능한 인사이트"; the paragraph of each
    holds the description of its own entry, and the [<strong>] element of
    each description is there with its text. *)
Theorem FeatureList_renders_three_cards :
  let out := (HomepageFeatures styles FeatureList).1 in
  length (cards out) = 3
  ∧ (λ card, childNodes <$> cardHeadings card) <$> cards out
    = [ [[Text "실전 프롬프트 분석"]];
        [[Text "LLM 에이전트 최적화"]];
        [[Text "바로 적용 가능한 인사이트"]] ]
  ∧ (λ card, childNodes <$> cardParagraphs card) <$> cards out
    = (λ props, [[description props]]) <$> FeatureList
  ∧ (λ card, emphasis <$> cardParagraphs card) <$> cards out
    = [ [[Element (Intrinsic "strong") [] [Text "실제 서비스"]]];
        [[Element (Intrinsic "strong") [] [Text "에이전트 개발의 핵심 요소"]]];
        [[Element (Intrinsic "strong") [] [Text "실무에서 바로 활용"]]] ].
Proof.
  cbn zeta. rewrite cards_HomepageFeatures.
  repeat split; vm_compute; reflexivity.
Qed.

(** C4.  On an empty array the call returns the section with its
    container and its row, the row has no child, and so there is no
    card. *)
Theorem empty_list_renders_empty_section :
  HomepageFeatures styles []
  = (Element (Intrinsic "section") [("className", styles "features")] [
       Element (Intrinsic "div") [("className", "container")] [
         Element (Intrinsic "div") [("className", "row")] []
       ]
     ], [])
  ∧ cards (HomepageFeatures styles []).1 = [].
Proof. split; reflexivity. Qed.

(** C5.  Two calls in a row, the second on the array the first one left,
    return the same tree. *)
Theorem render_twice_same_output (st : Store) :
  let first := HomepageFeatures styles st in
  let second := HomepageFeatures styles first.2 in
  second.1 = first.1
  ∧ (invocations styles 2 st).1 = [first.1; first.1].
Proof.
  cbn zeta. split.
  - rewrite (HomepageFeatures_eval styles st). cbn [fst snd].
    rewrite HomepageFeatures_eval. reflexivity.
  - rewrite invocations_eval. reflexivity.
Qed.

(** C6.  At run time, where a throw is a possible outcome: whatever
    values the array holds, [undefined] and [null] among them, a render
    returns a tree and throws nothing, and the row of that tree holds, for
    each element in order, the tree that the call of [Feature] on the
    props spread from that element returned.  When the array holds
    entries of type [FeatureItem], with any title, icon and description,
    the tree returned is the one [HomepageFeatures] is specified to
    return. *)
Theorem render_total :
  (∀ (V : Type) (array : list (option (Runtime.Object V))),
     ∃ out : Runtime.Node V,
       Runtime.render styles array = Runtime.Ok out
       ∧ Forall2
           (λ v card,
              ∃ (k : nat) (body : Runtime.Node V),
                card = Runtime.Called k body
                ∧ Runtime.Feature styles (Some (Runtime.spread v))
                  = Runtime.Ok body)
           array (Runtime.cards out))
  ∧ ∀ st : Store,
      ∃ out : Runtime.Node Runtime.JSValue,
        Runtime.render styles (Runtime.entry <$> st) = Runtime.Ok out
        ∧ Runtime.typed out = Some (HomepageFeatures styles st).1.
Proof.
  split.
  - intros V array. eexists. split; [apply Runtime_render_eval|].
    unfold Runtime.cards. cbn. rewrite app_nil_r.
    apply Forall2_imap. intros i v. by eexists _, _.
  - intros st. eexists. split; [apply Runtime_render_eval|].
    rewrite HomepageFeatures_eval. cbn [fst].
    rewrite imap_fmap.
    cbn [Runtime.typed Runtime.typedType].
    change (fix go (l : list (Runtime.Node Runtime.JSValue)) := _)
      with Runtime.typed_each.
    rewrite (Runtime_typed_each_imap _
      (λ idx props, FeatureElement idx (Feature styles props)));
      [reflexivity|].
    intros i item. reflexivity.
Qed.

(** C7.  A call hands the array on exactly as it received it, and after
    any number of calls starting from the array the module defines, the
    array is still [FeatureList]: same length, same order, same title, icon
    and description in every entry. *)
Theorem render_leaves_FeatureList_unchanged :
  (∀ st : Store, (HomepageFeatures styles st).2 = st)
  ∧ ∀ n : nat, (invocations styles n FeatureList).2 = FeatureList.
Proof.
  split.
  - intros st. rewrite HomepageFeatures_eval. reflexivity.
  - intros n. rewrite invocations_eval. reflexivity.
Qed.

(** C8.  Every card of the rendered section has a single root element and
    that element's class list holds the grid classes [col] and [col--4],
    the one-third column of the twelve-column grid. *)
Theorem every_card_is_one_third_column (st : Store) :
  let out := (HomepageFeatures styles st).1 in
  length (cards out) = length st
  ∧ Forall (λ card, classList <$> childNodes card = [["col"; "col--4"]])
      (cards out).
Proof.
  cbn zeta. rewrite cards_HomepageFeatures. split.
  - apply length_imap.
  - apply Forall_imap. intros i props. reflexivity.
Qed.

(** C9.  In every card the heading that holds the title is the theme's
    [Heading] asked for as ["h3"]. *)
Theorem title_is_level_3_heading (st : Store) :
  let out := (HomepageFeatures styles st).1 in
  Forall2
    (λ props card,
       cardHeadings card
       = [Element ThemeHeading [("as", "h3")] [Text (title props)]]
       ∧ prop "as" <$> cardHeadings card = [Some "h3"])
    st (cards out).
Proof.
  cbn zeta. rewrite cards_HomepageFeatures.
  apply Forall2_imap. intros i props. split; reflexivity.
Qed.

(** C10.  Every card has exactly one icon element: the entry's own [Svg]
    component, with [role] "img" and the CSS module's [featureSvg] class,
    and it sits in a wrapper whose class list holds [text--center]. *)
Theorem icon_has_role_img_and_featureSvg (st : Store) :
  let out := (HomepageFeatures styles st).1 in
  Forall2
    (λ props card,
       ∃ wrapper icon : ReactNode,
         cardIcons card = [(wrapper, icon)]
         ∧ hasType (SvgElement (Svg props)) icon
         ∧ prop "role" icon = Some "img"
         ∧ prop "className" icon = Some (styles "featureSvg")
         ∧ hasClass "text--center" wrapper)
    st (cards out).
Proof.
  cbn zeta. rewrite cards_HomepageFeatures.
  apply Forall2_imap. intros i props.
  eexists _, _. split; [reflexivity|].
  repeat split. unfold hasClass. cbn. apply list_elem_of_here.
Qed.

End Properties.

(** ** Keys, composition and what can be read back *)

Lemma append_nil_r (s : string) : s +:+ "" = s.
Proof.
  induction s as [|a s IH]; [reflexivity|].
  change (String a (s +:+ "") = String a s). by rewrite IH.
Qed.

Lemma append_assoc (s1 s2 s3 : string) :
  (s1 +:+ s2) +:+ s3 = s1 +:+ (s2 +:+ s3).
Proof.
  induction s1 as [|a s1 IH]; [reflexivity|].
  change (String a ((s1 +:+ s2) +:+ s3) = String a (s1 +:+ (s2 +:+ s3))).
  by rewrite IH.
Qed.

Lemma filter_flat_map {A C} (P : C → Prop) `{∀ x, Decision (P x)}
    (g : A → list C) (l : list A) :
  filter P (flat_map g l) = flat_map (λ x, filter P (g x)) l.
Proof.
  induction l as [|x l IH]; [reflexivity|].
  cbn [flat_map]. by rewrite filter_app, IH.
Qed.

Lemma flat_map_imap_pointwise {A C D} (h : C → list D) (g : nat → A → C)
    (k : A → list D) (l : list A) :
  (∀ i x, h (g i x) = k x) → flat_map h (imap g l) = flat_map k l.
Proof.
  revert g. induction l as [|x l IH]; intros g Hg; [reflexivity|].
  cbn [imap flat_map]. rewrite Hg. f_equal. apply IH. intros i y. apply Hg.
Qed.

Lemma textContent_imap {A} (g : nat → A → ReactNode) (h : A → string)
    (l : list A) :
  (∀ i x, textContent (g i x) = h x) →
  foldr (λ c acc, textContent c +:+ acc) "" (imap g l)
  = foldr (λ x acc, h x +:+ acc) "" l.
Proof.
  revert g. induction l as [|x l IH]; intros g Hg; [reflexivity|].
  cbn [imap foldr]. rewrite Hg. f_equal. apply IH. intros i y. apply Hg.
Qed.

Lemma entryOfCard_Feature (styles : string → string) (i : nat)
    (props : FeatureItem) :
  entryOfCard (FeatureElement i (Feature styles props)) = Some props.
Proof. destruct props as [t svg d]. reflexivity. Qed.

Lemma entryOfCard_cards (styles : string → string) (st : Store) :
  entryOfCard <$> cards (HomepageFeatures styles st).1 = Some <$> st.
Proof.
  rewrite cards_HomepageFeatures.
  apply fmap_imap_pointwise. intros i props. apply entryOfCard_Feature.
Qed.

Lemma card_outputs (styles : string → string) (st : Store) :
  childrenOf (cards (HomepageFeatures styles st).1) = Feature styles <$> st.
Proof.
  rewrite cards_HomepageFeatures. unfold childrenOf.
  rewrite (flat_map_imap_pointwise childNodes _ (λ x, [Feature styles x]))
    by reflexivity.
  induction st as [|x st IH]; [reflexivity|]. cbn. by rewrite IH.
Qed.

Section Further.

Variable styles : string → string.

(** X1.  The keys of the cards are the positions 0, 1, ..., one below the
    number of entries, in that order; so no two cards of a row share a
    key. *)
Theorem card_keys_are_positions (st : Store) :
  let out := (HomepageFeatures styles st).1 in
  elementKey <$> cards out = Some <$> seq 0 (length st)
  ∧ NoDup (elementKey <$> cards out).
Proof.
  cbn zeta. rewrite cards_HomepageFeatures.
  assert (Hkeys : elementKey <$>
            imap (λ idx props, FeatureElement idx (Feature styles props)) st
          = Some <$> seq 0 (length st)).
  { apply list_eq. intros i. rewrite !list_lookup_fmap, list_lookup_imap.
    destruct (decide (i < length st)) as [Hlt|Hge].
    - rewrite lookup_seq_lt by done.
      destruct (lookup_lt_is_Some_2 st i Hlt) as [v Hv]. rewrite Hv.
      reflexivity.
    - rewrite lookup_seq_ge by lia. rewrite (lookup_ge_None_2 st i) by lia.
      reflexivity. }
  split; [exact Hkeys|]. rewrite Hkeys.
  apply (NoDup_fmap_2 Some), NoDup_seq.
Qed.

(** X2.  Rendering an array that is one array followed by another gives
    the cards of the first, unchanged, followed by the cards of the second
    with their keys moved up by the length of the first. *)
Theorem cards_of_appended_list (st1 st2 : Store) :
  cards (HomepageFeatures styles (st1 ++ st2)%list).1
  = (cards (HomepageFeatures styles st1).1
     ++ imap (λ idx props,
          FeatureElement (length st1 + idx) (Feature styles props)) st2)%list.
Proof. rewrite !cards_HomepageFeatures, imap_app. reflexivity. Qed.

(** X3.  Every entry can be read back from its card: reading the cards of
    the rendered section gives the array, entry for entry. *)
Theorem entries_read_back_from_cards (st : Store) :
  entryOfCard <$> cards (HomepageFeatures styles st).1 = Some <$> st.
Proof. apply entryOfCard_cards. Qed.

(** X5.  The text of the rendered section is, entry after entry, the title
    followed by the text of the description, and nothing else. *)
Theorem section_text_is_titles_and_descriptions (st : Store) :
  textContent (HomepageFeatures styles st).1
  = foldr (λ props acc,
      (title props +:+ textContent (description props)) +:+ acc) "" st.
Proof.
  rewrite HomepageFeatures_eval. cbn [fst textContent foldr].
  rewrite !append_nil_r. apply textContent_imap. intros i props.
  cbn [textContent Feature foldr]. rewrite !append_nil_r. reflexivity.
Qed.

(** X6.  The [<strong>] elements of the rendered section are those of the
    descriptions, entry after entry: the component adds no emphasis of its
    own and loses none. *)
Theorem section_emphasis_is_from_descriptions (st : Store) :
  emphasis (HomepageFeatures styles st).1
  = flat_map (λ props, emphasis (description props)) st.
Proof.
  rewrite HomepageFeatures_eval. cbn [fst]. unfold emphasis.
  cbn [descendants flat_map]. rewrite !app_nil_r.
  do 3 (rewrite filter_cons_False by (by intros [=])).
  rewrite filter_flat_map. apply flat_map_imap_pointwise. intros i props.
  cbn [descendants Feature flat_map app]. rewrite !app_nil_r.
  repeat (rewrite filter_cons_False by (by intros [=])).
  reflexivity.
Qed.

(** X8.  The card bodies are, in order, what [Feature] returns for each
    entry: the body at a position depends on the entry at that position
    alone.  So an array made of the entries found at any list of positions
    (a reordering, a selection, a repetition) renders to the bodies found
    at those positions, in that order; only the keys follow position. *)
Theorem reordering_entries_reorders_cards (st : Store) :
  childrenOf (cards (HomepageFeatures styles st).1) = Feature styles <$> st
  ∧ ∀ positions : list nat,
      childrenOf
        (cards (HomepageFeatures styles (omap (λ i, st !! i) positions)).1)
      = omap (λ i, childrenOf (cards (HomepageFeatures styles st).1) !! i)
          positions.
Proof.
  split; [apply card_outputs|].
  intros positions. rewrite !card_outputs.
  induction positions as [|i positions IH]; [reflexivity|].
  cbn [omap list_omap]. rewrite list_lookup_fmap.
  destruct (st !! i) as [x|]; cbn; [by rewrite <- IH | exact IH].
Qed.

End Further.

(** X4.  Two arrays that render to the same section are the same array,
    whatever class names the CSS module assigns: rendering loses no
    entry and merges none. *)
Theorem rendering_is_injective (styles1 styles2 : string → string)
    (st1 st2 : Store) :
  (HomepageFeatures styles1 st1).1 = (HomepageFeatures styles2 st2).1 →
  st1 = st2.
Proof.
  intros Hout. apply (inj (fmap Some)).
  rewrite <- (entryOfCard_cards styles1 st1), <- (entryOfCard_cards styles2 st2).
  by rewrite Hout.
Qed.

(** X7.  Of the CSS module the rendered section uses the class names of
    [features] and, when there is at least one entry, [featureSvg], and
    no other: two modules give the same section exactly when they agree on
    these. *)
Theorem output_depends_on_two_class_names (styles1 styles2 : string → string)
    (st : Store) :
  (HomepageFeatures styles1 st).1 = (HomepageFeatures styles2 st).1
  ↔ styles1 "features" = styles2 "features"
    ∧ (st = [] ∨ styles1 "featureSvg" = styles2 "featureSvg").
Proof.
  rewrite !HomepageFeatures_eval. cbn [fst]. split.
  - intros Hout. injection Hout as Hfeatures Hcards. split; [done|].
    destruct st as [|x st]; [by left|right].
    cbn [imap] in Hcards. injection Hcards as Hcard _.
    unfold Feature in Hcard. congruence.
  - intros [Hfeatures Hsvg]. rewrite Hfeatures.
    destruct Hsvg as [->|Hsvg]; [reflexivity|].
    rewrite (imap_ext
      (λ idx props, FeatureElement idx (Feature styles1 props))
      (λ idx props, FeatureElement idx (Feature styles2 props)) st);
      [reflexivity|].
    intros i x _. unfold Feature. by rewrite Hsvg.
Qed.

(** Instances of the properties that have a premise. *)

Lemma rendering_is_injective_witness :
  (HomepageFeatures id FeatureList).1 = (HomepageFeatures id FeatureList).1
  ∧ FeatureList = FeatureList.
Proof.
  split; [reflexivity|].
  apply (rendering_is_injective id id FeatureList FeatureList). reflexivity.
Defined.

